(** * DocumentMCP: a shallow embedding of [mcp_server.py]

    The server registers a handful of tools and resources over three
    backing stores: the module-level dictionary [docs], the [todos] table of
    an external database, and the weather service reached over HTTP.  Each
    callback is embedded below as a function over the part of the world it
    touches; exceptions are values of [result], and mutation is explicit
    state passing. *)

From Equations Require Import Equations.
From Stdlib Require Import List String Ascii NArith ZArith Arith Bool Lia.
Import ListNotations.

(** ** Python strings *)

(** A Python [str] is a sequence of Unicode code points. *)
Definition str := list N.

(** A string literal of the source. *)
Definition lit (s : string) : str :=
  map N_of_ascii (list_ascii_of_string s).

Definition str_eq_dec : forall a b : str, {a = b} + {a <> b} :=
  list_eq_dec N.eq_dec.

(** [s.startswith(p)] *)
Fixpoint startswith (s p : str) : bool :=
  match p, s with
  | [], _ => true
  | _ :: _, [] => false
  | x :: p', c :: s' => N.eqb x c && startswith s' p'
  end.

(** [s.replace(old, new)].  With an empty [old] the interpreter interleaves
    [new] with the characters of [s]; otherwise it scans [s] from the left,
    and at each occurrence of [old] it emits [new] and resumes behind the
    occurrence. *)
Equations? replace (s old new : str) : str by wf (List.length s) lt :=
  replace [] [] new := new;
  replace (c :: s') [] new := new ++ c :: replace s' [] new;
  replace [] (_ :: _) new := [];
  replace (c :: s') (o :: old') new with startswith (c :: s') (o :: old') => {
    | true := new ++ replace (skipn (List.length old') s') (o :: old') new;
    | false := c :: replace s' (o :: old') new }.
Proof.
  all: simpl; try lia.
  rewrite length_skipn. lia.
Qed.

(** ** Exceptions and the state-and-exception monad *)

Inductive exception :=
| ValueError (msg : str)
| KeyError (key : str).

Inductive result (A : Type) :=
| Ok (a : A)
| Raise (e : exception).
Arguments Ok {A} a.
Arguments Raise {A} e.

(** A callback run against a store of type [S]: it ends in a value or an
    exception, and the store keeps whatever was written before the end. *)
Definition M (S A : Type) := S -> result A * S.

Definition ret {S A} (a : A) : M S A := fun s => (Ok a, s).
Definition raise {S A} (e : exception) : M S A := fun s => (Raise e, s).
Definition bind {S A B} (m : M S A) (k : A -> M S B) : M S B :=
  fun s => match m s with
           | (Ok a, s') => k a s'
           | (Raise e, s') => (Raise e, s')
           end.
Definition gets {S A} (f : S -> A) : M S A := fun s => (Ok (f s), s).
Definition modify {S} (f : S -> S) : M S unit := fun s => (Ok tt, f s).

Declare Scope py_scope.
Delimit Scope py_scope with py.
Notation "x <- m ;; k" := (bind m (fun x => k))
  (at level 61, m at next level, right associativity) : py_scope.
Notation "m ;; k" := (bind m (fun _ => k))
  (at level 61, right associativity) : py_scope.
Open Scope py_scope.

(** ** Python dictionaries with string keys

    A [dict] keeps its keys in insertion order; assigning to a key that is
    present overwrites the value in place, and assigning to a new key appends
    it. *)
Definition dict := list (str * str).

Fixpoint dict_get (d : dict) (k : str) : option str :=
  match d with
  | [] => None
  | (k', v) :: d' => if str_eq_dec k k' then Some v else dict_get d' k
  end.

(** [k in d] *)
Definition dict_contains (d : dict) (k : str) : bool :=
  match dict_get d k with Some _ => true | None => false end.

(** [d[k]] *)
Definition dict_getitem (d : dict) (k : str) : result str :=
  match dict_get d k with
  | Some v => Ok v
  | None => Raise (KeyError k)
  end.

(** [d[k] = v] *)
Fixpoint dict_setitem (d : dict) (k v : str) : dict :=
  match d with
  | [] => [(k, v)]
  | (k', v') :: d' =>
      if str_eq_dec k k' then (k', v) :: d' else (k', v') :: dict_setitem d' k v
  end.

(** [list(d.keys())] *)
Definition dict_keys (d : dict) : list str := map fst d.


(** ** The document store *)

Module Documents.

(** The module-level table [docs] as the source initialises it. *)
Definition docs : dict :=
  [ (lit "deposition.md",
     lit "This deposition covers the testimony of Angela Smith, P.E.");
    (lit "report.pdf",
     lit "The report details the state of a 20m condenser tower.");
    (lit "financials.docx",
     lit "These financials outline the project's budget and expenditures.");
    (lit "outlook.pdf",
     lit "This document presents the projected future performance of the system.");
    (lit "plan.md",
     lit "The plan outlines the steps for the project's implementation.");
    (lit "spec.txt",
     lit "These specifications define the technical requirements for the equipment.") ].

(** What the document callbacks can touch: the current binding of the
    global [docs], and the informational messages sent so far through the
    [ctx] that the host framework hands to a tool call. *)
Record world := { w_docs : dict; w_ctx : list str }.

(** A fresh process. *)
Definition startup : world := {| w_docs := docs; w_ctx := [] |}.

Definition set_docs (d : dict) (w : world) : world :=
  {| w_docs := d; w_ctx := w_ctx w |}.

(** [await ctx.info(msg)] *)
Definition ctx_info (msg : str) : M world unit :=
  modify (fun w => {| w_docs := w_docs w; w_ctx := w_ctx w ++ [msg] |}).

Definition lift {A} (r : result A) : M world A := fun w => (r, w).

Definition not_found (doc_id : str) : exception :=
  ValueError (lit "Document with id " ++ doc_id ++ lit " not found").

Definition read_document (doc_id : str) : M world str :=
  d <- gets w_docs ;;
  if negb (dict_contains d doc_id) then raise (not_found doc_id)
  else
    ctx_info (lit "Reading content from " ++ doc_id) ;;
    d <- gets w_docs ;;
    lift (dict_getitem d doc_id).

Definition edit_document (doc_id old_str new_str : str) : M world unit :=
  d <- gets w_docs ;;
  if negb (dict_contains d doc_id) then raise (not_found doc_id)
  else
    content <- lift (dict_getitem d doc_id) ;;
    modify (fun w =>
      set_docs (dict_setitem (w_docs w) doc_id (replace content old_str new_str)) w).

Definition list_docs : M world (list str) :=
  d <- gets w_docs ;;
  ret (dict_keys d).

Definition fetch_doc (doc_id : str) : M world str :=
  d <- gets w_docs ;;
  if negb (dict_contains d doc_id) then raise (not_found doc_id)
  else lift (dict_getitem d doc_id).

(** A sequence of [edit_document] calls, each given as
    [(doc_id, old_str, new_str)]; a call that raises leaves the store to
    the next one as it found it. *)
Fixpoint run_edits (calls : list (str * str * str)) (w : world) : world :=
  match calls with
  | [] => w
  | (doc_id, old_str, new_str) :: rest =>
      run_edits rest (snd (edit_document doc_id old_str new_str w))
  end.

End Documents.

(** ** The todos table *)

Module Todos.

(** Modelled from the spec: the declaration of the [todos] table, which
    lives in the external database and is not part of the repository.  A
    row has the columns (id, title, description, completed, created_at) in
    this order, the order in which [read_todos] reads them by position;
    [id] is generated, [description] may be NULL, [completed] is a boolean
    that starts out false, and [created_at] is the time of insertion. *)
Record row := {
  col_id : Z;
  col_title : str;
  col_description : option str;
  col_completed : bool;
  col_created_at : Z }.

(** The database as the callbacks see it: the rows of the table, the next
    generated id and the database clock. *)
Record database := { todos : list row; id_seq : Z; clock : Z }.

Definition with_todos (rows : list row) (db : database) : database :=
  {| todos := rows; id_seq := id_seq db; clock := clock db |}.

(** The dictionary that [read_todos] builds for one row. *)
Record todo := {
  id : Z;
  title : str;
  description : option str;
  is_completed : bool;
  created_at : Z }.

Definition title_is (t : str) (r : row) : bool :=
  if str_eq_dec (col_title r) t then true else false.

(** What a cursor holds after [execute]: the rows to fetch and the number
    of rows the statement affected. *)
Record cursor := { fetchall : list row; rowcount : Z }.

(** Every callback opens a connection, executes one statement on a cursor
    and commits it before closing, so a statement acts on the database at
    once. *)

(** [SELECT * FROM todos] *)
Definition execute_select : M database cursor :=
  rows <- gets todos ;;
  ret {| fetchall := rows; rowcount := Z.of_nat (List.length rows) |}.

(** [INSERT INTO todos (title, description) VALUES (%s, %s)] *)
Definition execute_insert (t : str) (d : option str) : M database cursor :=
  modify (fun db =>
    {| todos := todos db ++
                [ {| col_id := id_seq db; col_title := t; col_description := d;
                     col_completed := false; col_created_at := clock db |} ];
       id_seq := id_seq db + 1;
       clock := clock db |}) ;;
  ret {| fetchall := []; rowcount := 1 |}.

Definition set_completed (r : row) : row :=
  {| col_id := col_id r; col_title := col_title r;
     col_description := col_description r;
     col_completed := true; col_created_at := col_created_at r |}.

(** [UPDATE todos SET completed = TRUE WHERE title = %s] *)
Definition execute_update (t : str) : M database cursor :=
  rows <- gets todos ;;
  modify (with_todos
    (map (fun r => if title_is t r then set_completed r else r) rows)) ;;
  ret {| fetchall := [];
         rowcount := Z.of_nat (List.length (filter (title_is t) rows)) |}.

(** [DELETE FROM todos WHERE title = %s] *)
Definition execute_delete (t : str) : M database cursor :=
  rows <- gets todos ;;
  modify (with_todos (filter (fun r => negb (title_is t r)) rows)) ;;
  ret {| fetchall := [];
         rowcount := Z.of_nat (List.length (filter (title_is t) rows)) |}.

Definition not_found (t : str) : exception :=
  ValueError (lit "Todo item with title " ++ t ++ lit " was not found").

(** The dictionary built from one fetched row, by position. *)
Definition record_of (r : row) : todo :=
  {| id := col_id r; title := col_title r;
     description := col_description r;
     is_completed := col_completed r;
     created_at := col_created_at r |}.

Definition read_todos : M database (list todo) :=
  cur <- execute_select ;;
  ret (map record_of (fetchall cur)).

Definition add_todo (t : str) (d : option str) : M database unit :=
  execute_insert t d ;;
  ret tt.

Definition complete_todo (t : str) : M database unit :=
  cur <- execute_update t ;;
  let updated_rows := rowcount cur in
  if Z.eqb updated_rows 0 then raise (not_found t) else ret tt.

Definition delete_todo (t : str) : M database unit :=
  cur <- execute_delete t ;;
  let updated_rows := rowcount cur in
  if Z.eqb updated_rows 0 then raise (not_found t) else ret tt.

End Todos.

(** ** The weather alert lookup *)

Module Weather.

Definition WEATHER_API_URL : str := lit "https://api.weather.gov".

(** A value as [response.json()] builds it: [None], [bool], [int],
    [float] (kept as the text of its literal, no arithmetic is done on it),
    [str], [list] and [dict]. *)
#[warnings="-register-all"]
Inductive json :=
| JNull
| JBool (b : bool)
| JInt (n : Z)
| JFloat (text : str)
| JStr (s : str)
| JList (items : list json)
| JDict (members : list (str * json)).

(** [type(v).__name__] *)
Definition type_name (v : json) : str :=
  match v with
  | JNull => lit "NoneType"
  | JBool _ => lit "bool"
  | JInt _ => lit "int"
  | JFloat _ => lit "float"
  | JStr _ => lit "str"
  | JList _ => lit "list"
  | JDict _ => lit "dict"
  end.

Fixpoint members_get (ms : list (str * json)) (k : str) : option json :=
  match ms with
  | [] => None
  | (k', v) :: ms' => if str_eq_dec k k' then Some v else members_get ms' k
  end.

(** The body of the [try] block ends in a value or in an exception, of
    which the handler reads nothing but [str(e)]. *)
Inductive attempt (A : Type) :=
| Done (a : A)
| Caught (str_e : str).
Arguments Done {A} a.
Arguments Caught {A} str_e.

Definition attempt_bind {A B} (m : attempt A) (k : A -> attempt B) : attempt B :=
  match m with
  | Done a => k a
  | Caught e => Caught e
  end.

Notation "x <~ m ;; k" := (attempt_bind m (fun x => k))
  (at level 61, m at next level, right associativity).

(** [AttributeError] for a value without a [get] method. *)
Definition no_attribute_get (v : json) : str :=
  lit "'" ++ type_name v ++ lit "' object has no attribute 'get'".

(** [v.get(key, default)] *)
Definition py_get (v : json) (key : str) (default : json) : attempt json :=
  match v with
  | JDict ms =>
      match members_get ms key with
      | Some x => Done x
      | None => Done default
      end
  | _ => Caught (no_attribute_get v)
  end.

(** [v["features"]], with the messages of CPython 3.11 and later. *)
Definition py_getitem_features (v : json) : attempt json :=
  match v with
  | JDict ms =>
      match members_get ms (lit "features") with
      | Some x => Done x
      | None => Caught (lit "'features'")
      end
  | JList _ => Caught (lit "list indices must be integers or slices, not str")
  | JStr _ => Caught (lit "string indices must be integers, not 'str'")
  | _ => Caught (lit "'" ++ type_name v ++ lit "' object is not subscriptable")
  end.

(** The values that [for feature in v] goes through. *)
Definition py_iter (v : json) : attempt (list json) :=
  match v with
  | JList items => Done items
  | JDict ms => Done (map (fun kv => JStr (fst kv)) ms)
  | JStr s => Done (map (fun c => JStr [c]) s)
  | _ => Caught (lit "'" ++ type_name v ++ lit "' object is not iterable")
  end.

(** The dictionary that [format_weather_alert] returns. *)
Record WeatherAlert := {
  Event : json;
  Area : json;
  Severity : json;
  Description : json;
  Instruction : json }.

Definition Unknown : json := JStr (lit "Unknown").

Definition format_weather_alert (feature : json) : attempt WeatherAlert :=
  alert_properties <~ py_get feature (lit "properties") JNull ;;
  event <~ py_get alert_properties (lit "event") Unknown ;;
  area <~ py_get alert_properties (lit "areaDesc") Unknown ;;
  severity <~ py_get alert_properties (lit "severity") Unknown ;;
  description <~ py_get alert_properties (lit "description") Unknown ;;
  instruction <~ py_get alert_properties (lit "instruction") Unknown ;;
  Done {| Event := event; Area := area; Severity := severity;
          Description := description; Instruction := instruction |}.

(** [[format_weather_alert(feature) for feature in features]]: the first
    feature that raises ends the comprehension. *)
Fixpoint format_all (features : list json) : attempt (list WeatherAlert) :=
  match features with
  | [] => Done []
  | feature :: rest =>
      alert <~ format_weather_alert feature ;;
      alerts <~ format_all rest ;;
      Done (alert :: alerts)
  end.

(** What [requests.get(url)] hands back: the status code, the message of
    the [HTTPError] that [raise_for_status] would build from it, and the
    outcome of decoding the body with [json()]. *)
Record response := {
  status_code : Z;
  http_error_msg : str;
  body_json : attempt json }.

(** [response.raise_for_status()] *)
Definition raise_for_status (r : response) : attempt unit :=
  if Z.leb 400 (status_code r) && Z.ltb (status_code r) 600
  then Caught (http_error_msg r)
  else Done tt.

Section Upstream.

(** The network: [requests.get] applied to a URL returns a response or
    raises. *)
Variable requests_get : str -> attempt response.

Definition get_weather_alerts (state : str) : result (list WeatherAlert) :=
  let body :=
    response <~ requests_get (WEATHER_API_URL ++ lit "/alerts/active/area/" ++ state) ;;
    _ <~ raise_for_status response ;;
    parsed <~ body_json response ;;
    features <~ py_getitem_features parsed ;;
    items <~ py_iter features ;;
    format_all items in
  match body with
  | Done alerts => Ok alerts
  | Caught e =>
      Raise (ValueError
               (lit "Error fetching weather alerts for " ++ state ++ lit ": " ++ e))
  end.

End Upstream.

End Weather.

(** ** The file tools *)

Module Files.

(** What the file tools see of the file system: the text of the regular
    files, by path, and for a path that names no file, whether the file can
    be created there (its directory exists).  Paths are taken as the process
    resolves them; permissions, directories at the path itself and text
    encodings are left out. *)
Record filesystem := { files : dict; creatable : str -> bool }.

Definition set_files (d : dict) (fs : filesystem) : filesystem :=
  {| files := d; creatable := creatable fs |}.

Inductive raised :=
| ValueError (msg : str)
| FileNotFoundError (path : str).

Inductive outcome (A : Type) :=
| Returned (a : A)
| Raised (e : raised).
Arguments Returned {A} a.
Arguments Raised {A} e.

(** [open(file_name, "r")] followed by [file.read()] *)
Definition open_read (file_name : str) (fs : filesystem) : outcome str :=
  match dict_get (files fs) file_name with
  | Some content => Returned content
  | None => Raised (FileNotFoundError file_name)
  end.

Definition read_file (file_name : str) (fs : filesystem) : outcome str :=
  match open_read file_name fs with
  | Returned content => Returned content
  | Raised (FileNotFoundError _) =>
      Raised (ValueError (lit "File " ++ file_name ++ lit " not found"))
  | Raised e => Raised e
  end.

(** [open(file_name, "a")]: the file is created empty when it is missing and
    can be created. *)
Definition open_append (file_name : str) (fs : filesystem)
  : outcome unit * filesystem :=
  match dict_get (files fs) file_name with
  | Some _ => (Returned tt, fs)
  | None =>
      if creatable fs file_name
      then (Returned tt, set_files (dict_setitem (files fs) file_name []) fs)
      else (Raised (FileNotFoundError file_name), fs)
  end.

(** [file.write(new_text)] on a file opened for appending. *)
Definition write_append (file_name new_text : str) (fs : filesystem)
  : filesystem :=
  match dict_get (files fs) file_name with
  | Some content =>
      set_files (dict_setitem (files fs) file_name (content ++ new_text)) fs
  | None => fs
  end.

Definition edit_file (file_name new_text : str) (fs : filesystem)
  : outcome unit * filesystem :=
  match open_append file_name fs with
  | (Returned _, fs') => (Returned tt, write_append file_name new_text fs')
  | (Raised e, fs') => (Raised e, fs')
  end.

End Files.

(** ** The prompt template *)

Module Prompts.

Inductive role := user | assistant.

Record Message := { msg_role : role; msg_content : str }.

(** [base.UserMessage(content)] *)
Definition UserMessage (content : str) : Message :=
  {| msg_role := user; msg_content := content |}.

(** The line feed between the lines of the template. *)
Definition nl : str := [10%N].

Definition format_document (doc_id : str) : list Message :=
  let prompt :=
    nl ++
    lit "    Your goal is to reformat a document to be written with markdown syntax." ++ nl ++
    lit "    " ++ nl ++
    lit "    The id of the document you need to reformat is:" ++ nl ++
    lit "    <document_id>" ++ nl ++
    lit "    " ++ doc_id ++ nl ++
    lit "    </document_id>" ++ nl ++
    lit "    " ++ nl ++
    lit "    Add in headers, bullet points, tables, etc as necessary. Feel free to add in structure." ++ nl ++
    lit "    Use the 'edit_document' tool to edit the document. After the document has been reformatted..." ++ nl
  in
  [UserMessage prompt].

End Prompts.

(** ** Vocabulary of the specification *)

(** The number of positions of [s] at which [old] occurs literally. *)
Fixpoint occurrences (s old : str) : nat :=
  match s with
  | [] => if startswith [] old then 1 else 0
  | c :: s' => (if startswith (c :: s') old then 1 else 0) + occurrences s' old
  end.

(** [sep.join(pieces)] *)
Fixpoint join (sep : str) (pieces : list str) : str :=
  match pieces with
  | [] => []
  | p :: ps =>
      match ps with
      | [] => p
      | _ :: _ => p ++ sep ++ join sep ps
      end
  end.

(** The members of the [properties] object of a feature, when the feature
    is an object that carries one. *)
Definition properties_of (feature : Weather.json)
  : option (list (str * Weather.json)) :=
  match feature with
  | Weather.JDict ms =>
      match Weather.members_get ms (lit "properties") with
      | Some (Weather.JDict ps) => Some ps
      | _ => None
      end
  | _ => None
  end.

Definition carries_properties (feature : Weather.json) : bool :=
  match properties_of feature with
  | Some _ => true
  | None => false
  end.

(** A subfield of a feature as the data model words it: the upstream value,
    or "Unknown" if it is absent upstream. *)
Definition subfield (feature : Weather.json) (name : str) : Weather.json :=
  match properties_of feature with
  | Some ps =>
      match Weather.members_get ps name with
      | Some v => v
      | None => Weather.Unknown
      end
  | None => Weather.Unknown
  end.

(** The WeatherAlert projection of the data model. *)
Definition projection (feature : Weather.json) : Weather.WeatherAlert :=
  {| Weather.Event := subfield feature (lit "event");
     Weather.Area := subfield feature (lit "areaDesc");
     Weather.Severity := subfield feature (lit "severity");
     Weather.Description := subfield feature (lit "description");
     Weather.Instruction := subfield feature (lit "instruction") |}.

(** The URL that [get_weather_alerts] requests for a state. *)
Definition alerts_url (state : str) : str :=
  Weather.WEATHER_API_URL ++ lit "/alerts/active/area/" ++ state.

(** ** Sample inputs *)

(** A table with two rows of one title and a row of another. *)
Definition sample_db : Todos.database :=
  {| Todos.todos :=
       [ {| Todos.col_id := 1; Todos.col_title := lit "milk";
            Todos.col_description := None; Todos.col_completed := false;
            Todos.col_created_at := 10 |};
         {| Todos.col_id := 2; Todos.col_title := lit "eggs";
            Todos.col_description := Some (lit "a dozen");
            Todos.col_completed := false; Todos.col_created_at := 11 |};
         {| Todos.col_id := 3; Todos.col_title := lit "milk";
            Todos.col_description := Some (lit "oat");
            Todos.col_completed := true; Todos.col_created_at := 12 |} ];
     Todos.id_seq := 4;
     Todos.clock := 20 |}.

(** An upstream that answers every request with status 200 and the given
    body. *)
Definition upstream_ok (body : Weather.json)
  : str -> Weather.attempt Weather.response :=
  fun _ => Weather.Done
    {| Weather.status_code := 200;
       Weather.http_error_msg := [];
       Weather.body_json := Weather.Done body |}.

(** [{"features": [{}]}] *)
Definition body_bare_feature : Weather.json :=
  Weather.JDict [(lit "features", Weather.JList [Weather.JDict []])].

(** [{"features": [{"properties": {"event": "Flood Warning",
    "areaDesc": "Ada", "description": "Rain", "instruction": null}}]}] *)
Definition body_no_severity : Weather.json :=
  Weather.JDict
    [(lit "features",
      Weather.JList
        [Weather.JDict
           [(lit "properties",
             Weather.JDict
               [(lit "event", Weather.JStr (lit "Flood Warning"));
                (lit "areaDesc", Weather.JStr (lit "Ada"));
                (lit "description", Weather.JStr (lit "Rain"));
                (lit "instruction", Weather.JNull)])]])].

(** * Properties *)

(** ** Strings *)

Lemma startswith_nil (s : str) : startswith s [] = true.
Proof. destruct s; reflexivity. Qed.

Lemma startswith_app (p q : str) : startswith (p ++ q) p = true.
Proof.
  induction p as [|x p IH]; simpl.
  - apply startswith_nil.
  - now rewrite N.eqb_refl.
Qed.

Lemma startswith_inv (s p : str) :
  startswith s p = true -> s = p ++ skipn (List.length p) s.
Proof.
  revert s. induction p as [|x p IH]; intros s H.
  - reflexivity.
  - destruct s as [|c s]; simpl in H; [discriminate|].
    apply andb_true_iff in H as [Hx Hp].
    apply N.eqb_eq in Hx. subst c. simpl. f_equal. now apply IH.
Qed.

Lemma skipn_length_app (p q : str) : skipn (List.length p) (p ++ q) = q.
Proof. induction p; simpl; auto. Qed.

Lemma replace_cons (c : N) (s : str) (o : N) (old new : str) :
  replace (c :: s) (o :: old) new =
  if startswith (c :: s) (o :: old)
  then new ++ replace (skipn (List.length old) s) (o :: old) new
  else c :: replace s (o :: old) new.
Proof.
  simp replace. destruct (startswith (c :: s) (o :: old)); reflexivity.
Qed.

Lemma occurrences_suffix (p s old : str) :
  occurrences s old <= occurrences (p ++ s) old.
Proof.
  induction p as [|c p IH]; simpl; lia.
Qed.

Lemma occurrences_nil_pos (s : str) : 0 < occurrences s [].
Proof. destruct s; simpl; lia. Qed.

Lemma occurrences_startswith (s old : str) :
  startswith s old = true -> 0 < occurrences s old.
Proof. destruct s; simpl; intros ->; lia. Qed.

Lemma replace_absent (s old new : str) :
  occurrences s old = 0 -> replace s old new = s.
Proof.
  revert old new.
  induction s as [|c s IH]; intros old new H.
  - destruct old; [discriminate H | now simp replace].
  - destruct old as [|o old].
    + pose proof (occurrences_nil_pos (c :: s)). lia.
    + rewrite replace_cons. cbn [occurrences] in H.
      destruct (startswith (c :: s) (o :: old)); [discriminate H|].
      f_equal. now apply IH.
Qed.

Lemma replace_once (p old q new : str) :
  occurrences (p ++ old ++ q) old = 1 ->
  replace (p ++ old ++ q) old new = p ++ new ++ q.
Proof.
  induction p as [|c p IH]; intros H.
  - simpl in *. destruct old as [|o old].
    + simpl in *. destruct q as [|c q].
      * simp replace. now rewrite app_nil_r.
      * simpl in H. pose proof (occurrences_nil_pos q). lia.
    + simpl app. rewrite replace_cons.
      change (o :: old ++ q) with ((o :: old) ++ q) at 1.
      rewrite startswith_app, skipn_length_app.
      f_equal. apply replace_absent.
      simpl app in H. cbn [occurrences] in H.
      change (o :: old ++ q) with ((o :: old) ++ q) in H at 1.
      rewrite startswith_app in H.
      pose proof (occurrences_suffix old q (o :: old)). lia.
  - assert (Hpos : 0 < occurrences (p ++ old ++ q) old).
    { pose proof (occurrences_suffix p (old ++ q) old).
      pose proof (occurrences_startswith (old ++ q) old (startswith_app old q)).
      lia. }
    simpl app in *. cbn [occurrences] in H.
    destruct old as [|o old].
    + rewrite startswith_nil in H. lia.
    + rewrite replace_cons.
      destruct (startswith (c :: p ++ (o :: old) ++ q) (o :: old)); [lia|].
      f_equal. apply IH. exact H.
Qed.

Lemma startswith_weaken (a t p : str) :
  startswith a p = true -> startswith (a ++ t) p = true.
Proof.
  revert a. induction p as [|x p IH]; intros a H.
  - apply startswith_nil.
  - destruct a as [|c a]; simpl in *; [discriminate|].
    apply andb_true_iff in H as [Hx Hp].
    rewrite Hx. simpl. now apply IH.
Qed.

Lemma join_cons (sep p : str) (ps : list str) :
  ps <> [] -> join sep (p :: ps) = p ++ sep ++ join sep ps.
Proof. destruct ps; [congruence | reflexivity]. Qed.

Lemma join_head (sep p : str) (ps : list str) :
  exists t, join sep (p :: ps) = p ++ t.
Proof.
  destruct ps as [|p' ps].
  - exists []. simpl. now rewrite app_nil_r.
  - exists (sep ++ join sep (p' :: ps)). reflexivity.
Qed.

(** With a non-empty [old], [s] is cut at occurrences of [old] into pieces
    free of [old], and [replace] joins the same pieces with [new]. *)
Lemma replace_pieces_nonempty (o : N) (old s : str) :
  exists pieces,
    pieces <> [] /\
    s = join (o :: old) pieces /\
    Forall (fun p => occurrences p (o :: old) = 0) pieces /\
    forall new, replace s (o :: old) new = join new pieces.
Proof.
  remember (List.length s) as n eqn:Hn.
  revert s Hn. induction n as [n IH] using lt_wf_ind. intros s Hn.
  destruct s as [|c s].
  - exists [[]]. split; [discriminate|]. split; [reflexivity|]. split.
    + constructor; [reflexivity | constructor].
    + intros new. now simp replace.
  - destruct (startswith (c :: s) (o :: old)) eqn:Hsw.
    + pose proof (startswith_inv _ _ Hsw) as Hs.
      set (rest := skipn (List.length old) s) in *.
      change (skipn (List.length (o :: old)) (c :: s)) with rest in Hs.
      destruct (IH (List.length rest)) with (s := rest)
        as (ps & Hne & Hjoin & Hfree & Hrep); [|reflexivity|].
      { subst n rest. rewrite length_skipn. simpl. lia. }
      exists ([] :: ps). split; [discriminate|]. split; [|split].
      * rewrite join_cons by assumption. simpl app at 1.
        rewrite <- Hjoin. exact Hs.
      * constructor; [reflexivity | assumption].
      * intros new. rewrite replace_cons, Hsw, join_cons by assumption.
        fold rest. now rewrite Hrep.
    + destruct (IH (List.length s)) with (s := s)
        as (ps & Hne & Hjoin & Hfree & Hrep); [|reflexivity|].
      { subst n. simpl. lia. }
      destruct ps as [|p0 ps]; [congruence|].
      exists ((c :: p0) :: ps). split; [discriminate|]. split; [|split].
      * rewrite Hjoin at 1. destruct ps; reflexivity.
      * apply Forall_cons_iff in Hfree as [Hp0 Hps].
        constructor; [|assumption].
        cbn [occurrences]. rewrite Hp0.
        destruct (startswith (c :: p0) (o :: old)) eqn:Hsw'; [|reflexivity].
        destruct (join_head (o :: old) p0 ps) as [t Ht].
        rewrite Hjoin, Ht in Hsw.
        change (c :: p0 ++ t) with ((c :: p0) ++ t) in Hsw.
        rewrite (startswith_weaken _ t _ Hsw') in Hsw. discriminate.
      * intros new. rewrite replace_cons, Hsw, Hrep.
        destruct ps; reflexivity.
Qed.

(** With an empty [old], [new] goes before every character and at the end. *)
Lemma replace_interleave (s new : str) :
  replace s [] new = List.concat (map (fun c => new ++ [c]) s) ++ new.
Proof.
  induction s as [|c s IH]; simp replace.
  - reflexivity.
  - rewrite IH. simpl. rewrite <- !app_assoc. reflexivity.
Qed.

Lemma join_singletons (sep s : str) :
  join sep (map (fun c => [c]) s ++ [[]]) = List.concat (map (fun c => c :: sep) s).
Proof.
  induction s as [|c s IH]; [reflexivity|].
  change (map (fun c => [c]) (c :: s) ++ [[]])
    with ([c] :: (map (fun c => [c]) s ++ [[]])).
  rewrite join_cons by (destruct s; discriminate).
  rewrite IH. reflexivity.
Qed.

Lemma replace_pieces_empty (s : str) :
  exists pieces,
    pieces <> [] /\
    s = join [] pieces /\
    forall new, replace s [] new = join new pieces.
Proof.
  exists ([] :: (map (fun c => [c]) s ++ [[]])).
  split; [discriminate|]. split.
  - rewrite join_cons by (destruct s; discriminate).
    rewrite join_singletons. simpl.
    induction s as [|c s IH]; [reflexivity | simpl; now f_equal].
  - intros new. rewrite join_cons by (destruct s; discriminate).
    rewrite join_singletons, replace_interleave. simpl.
    induction s as [|c s IH]; simpl.
    + now rewrite app_nil_r.
    + rewrite <- !app_assoc. simpl. rewrite <- IH. reflexivity.
Qed.

(** ** Dictionaries *)

Lemma dict_get_setitem (d : dict) (k v k' : str) :
  dict_get (dict_setitem d k v) k' =
  if str_eq_dec k' k then Some v else dict_get d k'.
Proof.
  induction d as [|[k0 v0] d IH]; simpl.
  - destruct (str_eq_dec k' k); reflexivity.
  - destruct (str_eq_dec k k0) as [->|Hk]; simpl.
    + destruct (str_eq_dec k' k0); reflexivity.
    + destruct (str_eq_dec k' k0) as [->|Hk'].
      * destruct (str_eq_dec k0 k); [congruence | reflexivity].
      * exact IH.
Qed.

Lemma dict_keys_setitem (d : dict) (k v c : str) :
  dict_get d k = Some c -> dict_keys (dict_setitem d k v) = dict_keys d.
Proof.
  induction d as [|[k0 v0] d IH]; simpl; [discriminate|].
  destruct (str_eq_dec k k0); simpl; intros H; [reflexivity|].
  f_equal. now apply IH.
Qed.

(** ** Documents *)

Section DocumentFacts.

Import Documents.

Variable w : world.
Variable doc_id : str.

Lemma read_document_run :
  read_document doc_id w =
  match dict_get (w_docs w) doc_id with
  | None => (Raise (not_found doc_id), w)
  | Some content =>
      (Ok content,
       {| w_docs := w_docs w;
          w_ctx := w_ctx w ++ [lit "Reading content from " ++ doc_id] |})
  end.
Proof.
  unfold read_document, bind, gets, raise, ctx_info, modify, lift,
    dict_contains, dict_getitem.
  cbn [w_docs w_ctx].
  destruct (dict_get (w_docs w) doc_id) eqn:E; cbn [negb w_docs]; [|reflexivity].
  now rewrite E.
Qed.

Lemma fetch_doc_run :
  fetch_doc doc_id w =
  match dict_get (w_docs w) doc_id with
  | None => (Raise (not_found doc_id), w)
  | Some content => (Ok content, w)
  end.
Proof.
  unfold fetch_doc, bind, gets, raise, lift, dict_contains, dict_getitem.
  destruct (dict_get (w_docs w) doc_id); reflexivity.
Qed.

Lemma edit_document_run (old_str new_str : str) :
  edit_document doc_id old_str new_str w =
  match dict_get (w_docs w) doc_id with
  | None => (Raise (not_found doc_id), w)
  | Some content =>
      (Ok tt,
       set_docs (dict_setitem (w_docs w) doc_id
                   (replace content old_str new_str)) w)
  end.
Proof.
  unfold edit_document, bind, gets, raise, modify, lift,
    dict_contains, dict_getitem.
  destruct (dict_get (w_docs w) doc_id); reflexivity.
Qed.

End DocumentFacts.

Import Documents.

(** C3.  [read_document] raises the not-found error exactly when [doc_id] is
    not a key of [docs]; when it is a key, the call returns the content that
    is stored under it at that moment. *)
Theorem read_document_contract (w : world) (doc_id : str) :
  (fst (read_document doc_id w) = Raise (not_found doc_id) <->
   dict_contains (w_docs w) doc_id = false) /\
  (forall content,
     dict_get (w_docs w) doc_id = Some content ->
     fst (read_document doc_id w) = Ok content).
Proof.
  rewrite read_document_run. unfold dict_contains.
  destruct (dict_get (w_docs w) doc_id) as [c|]; cbn [fst]; split.
  - split; discriminate.
  - intros content [= ->]. reflexivity.
  - split; reflexivity.
  - discriminate.
Qed.

Lemma read_document_contract_witness :
  fst (read_document (lit "memo.txt") startup) = Raise (not_found (lit "memo.txt")) /\
  fst (read_document (lit "report.pdf") startup) =
    Ok (lit "The report details the state of a 20m condenser tower.").
Proof.
  split.
  - apply (proj1 (read_document_contract startup (lit "memo.txt"))).
    reflexivity.
  - apply (proj2 (read_document_contract startup (lit "report.pdf"))).
    reflexivity.
Defined.

(** C8.  On every store and every [doc_id], [fetch_doc] ends as
    [read_document] does, with the same exception or the same content; it
    leaves the world as it is, where [read_document] adds its informational
    message when the document exists. *)
Theorem fetch_doc_same_contract (w : world) (doc_id : str) :
  fst (fetch_doc doc_id w) = fst (read_document doc_id w) /\
  fst (fetch_doc doc_id w) =
    match dict_get (w_docs w) doc_id with
    | Some content => Ok content
    | None => Raise (not_found doc_id)
    end /\
  snd (fetch_doc doc_id w) = w /\
  snd (read_document doc_id w) =
    {| w_docs := w_docs w;
       w_ctx := if dict_contains (w_docs w) doc_id
                then w_ctx w ++ [lit "Reading content from " ++ doc_id]
                else w_ctx w |}.
Proof.
  rewrite read_document_run, fetch_doc_run. unfold dict_contains.
  destruct w as [d log]. cbn [w_docs w_ctx].
  destruct (dict_get d doc_id); repeat split; reflexivity.
Qed.

(** C7.  [list_docs] returns the keys of [docs] in insertion order, which on
    a fresh process are the six seeded ids; no sequence of [edit_document]
    calls changes that list, since a call rebinds the content of its own
    [doc_id] and nothing else. *)
Theorem list_docs_unchanged_by_edits :
  (forall w, list_docs w = (Ok (map fst (w_docs w)), w)) /\
  fst (list_docs startup) =
    Ok [lit "deposition.md"; lit "report.pdf"; lit "financials.docx";
        lit "outlook.pdf"; lit "plan.md"; lit "spec.txt"] /\
  (forall calls w, fst (list_docs (run_edits calls w)) = fst (list_docs w)) /\
  (forall doc_id old_str new_str w k,
     dict_get (w_docs (snd (edit_document doc_id old_str new_str w))) k =
     if str_eq_dec k doc_id
     then option_map (fun content => replace content old_str new_str)
            (dict_get (w_docs w) k)
     else dict_get (w_docs w) k).
Proof.
  split; [reflexivity|]. split; [reflexivity|]. split.
  - induction calls as [|[[doc_id old_str] new_str] rest IH]; intros w.
    + reflexivity.
    + cbn [run_edits]. rewrite IH, edit_document_run.
      destruct (dict_get (w_docs w) doc_id) eqn:E; [|reflexivity].
      unfold list_docs, bind, gets, ret, set_docs. cbn [fst snd w_docs].
      f_equal. eapply dict_keys_setitem. eassumption.
  - intros doc_id old_str new_str w k. rewrite edit_document_run.
    destruct (dict_get (w_docs w) doc_id) eqn:E; cbn [snd set_docs w_docs].
    + rewrite dict_get_setitem.
      destruct (str_eq_dec k doc_id) as [->|]; [|reflexivity].
      now rewrite E.
    + destruct (str_eq_dec k doc_id) as [->|]; [|reflexivity].
      now rewrite E.
Qed.

(** C2.  [edit_document] on an id that is not a key raises the not-found
    error and leaves the store alone.  On a stored id it succeeds, and the
    new content is the old one with every occurrence of [old_str] replaced by
    [new_str]: the old content is the pieces joined by [old_str], the new one
    the same pieces joined by [new_str], and with a non-empty [old_str] no
    piece contains [old_str].  When [old_str] occurs exactly once, the new
    content is the old one with that occurrence replaced; when it does not
    occur, the content is unchanged. *)
Theorem edit_document_replaces (w : world) (doc_id old_str new_str : str) :
  (dict_contains (w_docs w) doc_id = false ->
   edit_document doc_id old_str new_str w = (Raise (not_found doc_id), w)) /\
  (forall content,
     dict_get (w_docs w) doc_id = Some content ->
     exists w' content',
       edit_document doc_id old_str new_str w = (Ok tt, w') /\
       dict_get (w_docs w') doc_id = Some content' /\
       (exists pieces,
          pieces <> [] /\
          content = join old_str pieces /\
          content' = join new_str pieces /\
          (old_str <> [] ->
           Forall (fun p => occurrences p old_str = 0) pieces)) /\
       (occurrences content old_str = 1 ->
        forall p q, content = p ++ old_str ++ q ->
                    content' = p ++ new_str ++ q) /\
       (occurrences content old_str = 0 -> content' = content)).
Proof.
  rewrite edit_document_run. unfold dict_contains. split.
  - destruct (dict_get (w_docs w) doc_id); [discriminate | reflexivity].
  - intros content ->.
    eexists _, (replace content old_str new_str).
    split; [reflexivity|]. split; [|split; [|split]].
    + cbn [set_docs w_docs]. rewrite dict_get_setitem.
      destruct (str_eq_dec doc_id doc_id); [reflexivity | congruence].
    + destruct old_str as [|o old].
      * destruct (replace_pieces_empty content) as (ps & Hne & Hj & Hr).
        exists ps. repeat (split; [assumption || apply Hr|]). congruence.
      * destruct (replace_pieces_nonempty o old content)
          as (ps & Hne & Hj & Hfree & Hr).
        exists ps. repeat (split; [assumption || apply Hr|]). auto.
    + intros Hone p q ->. now apply replace_once.
    + intros Hnone. now apply replace_absent.
Qed.

Lemma edit_document_replaces_witness :
  edit_document (lit "memo.txt") (lit "a") (lit "b") startup =
    (Raise (not_found (lit "memo.txt")), startup) /\
  exists w',
    edit_document (lit "report.pdf") (lit "20m") (lit "25m") startup = (Ok tt, w') /\
    dict_get (w_docs w') (lit "report.pdf") =
      Some (lit "The report details the state of a 25m condenser tower.").
Proof.
  split.
  - apply (proj1 (edit_document_replaces startup (lit "memo.txt") (lit "a") (lit "b"))).
    reflexivity.
  - destruct (proj2 (edit_document_replaces startup (lit "report.pdf")
                       (lit "20m") (lit "25m"))
                _ eq_refl)
      as (w' & content' & Hrun & Hget & _ & Honce & _).
    exists w'. split; [exact Hrun|].
    rewrite Hget. f_equal.
    apply (Honce eq_refl (lit "The report details the state of a ")
             (lit " condenser tower.")).
    reflexivity.
Defined.

Lemma length_interleave (s new : str) :
  List.length (List.concat (map (fun c => new ++ [c]) s) ++ new) =
  List.length s * S (List.length new) + List.length new.
Proof.
  induction s as [|c s IH]; [reflexivity|].
  cbn [map List.concat]. rewrite <- !app_assoc, length_app.
  cbn [app List.length]. rewrite IH. lia.
Qed.

(** C9.  On a stored document with non-empty content, [edit_document] with
    the empty string as [old_str] and a non-empty [new_str] succeeds and
    stores [new_str] before every character of the content and once more at
    its end, which differs from the content it found. *)
Theorem edit_document_empty_old_str (w : world) (doc_id content new_str : str) :
  dict_get (w_docs w) doc_id = Some content ->
  content <> [] ->
  new_str <> [] ->
  exists w',
    edit_document doc_id [] new_str w = (Ok tt, w') /\
    dict_get (w_docs w') doc_id =
      Some (List.concat (map (fun c => new_str ++ [c]) content) ++ new_str) /\
    dict_get (w_docs w') doc_id <> Some content.
Proof.
  intros Hget Hcontent Hnew.
  rewrite edit_document_run, Hget.
  eexists. split; [reflexivity|].
  cbn [set_docs w_docs]. rewrite dict_get_setitem.
  destruct (str_eq_dec doc_id doc_id); [|congruence].
  rewrite replace_interleave. split; [reflexivity|].
  intros [= H]. apply (f_equal (@List.length N)) in H.
  rewrite length_interleave in H.
  destruct new_str; [congruence|]. simpl in H. nia.
Qed.

Lemma edit_document_empty_old_str_witness :
  exists w',
    edit_document (lit "k") [] (lit "-")
      {| w_docs := [(lit "k", lit "ab")]; w_ctx := [] |} = (Ok tt, w') /\
    dict_get (w_docs w') (lit "k") = Some (lit "-a-b-") /\
    dict_get (w_docs w') (lit "k") <> Some (lit "ab").
Proof.
  apply (edit_document_empty_old_str
           {| w_docs := [(lit "k", lit "ab")]; w_ctx := [] |}
           (lit "k") (lit "ab") (lit "-")).
  - reflexivity.
  - discriminate.
  - discriminate.
Defined.

(** ** Todos *)

Import Todos.

Lemma title_is_true (t : str) (r : row) :
  title_is t r = true <-> col_title r = t.
Proof.
  unfold title_is. destruct (str_eq_dec (col_title r) t); split;
    congruence.
Qed.

Lemma read_todos_run (db : database) :
  read_todos db = (Ok (map record_of (todos db)), db).
Proof. reflexivity. Qed.

Lemma complete_todo_run (t : str) (db : database) :
  complete_todo t db =
  (if Z.eqb (Z.of_nat (List.length (filter (title_is t) (todos db)))) 0
   then Raise (not_found t) else Ok tt,
   with_todos (map (fun r => if title_is t r then set_completed r else r)
                 (todos db)) db).
Proof.
  unfold complete_todo, execute_update, bind, gets, modify, ret, raise.
  cbn [rowcount].
  destruct (Z.eqb _ 0); reflexivity.
Qed.

Lemma delete_todo_run (t : str) (db : database) :
  delete_todo t db =
  (if Z.eqb (Z.of_nat (List.length (filter (title_is t) (todos db)))) 0
   then Raise (not_found t) else Ok tt,
   with_todos (filter (fun r => negb (title_is t r)) (todos db)) db).
Proof.
  unfold delete_todo, execute_delete, bind, gets, modify, ret, raise.
  cbn [rowcount].
  destruct (Z.eqb _ 0); reflexivity.
Qed.

Lemma matching_rows_pos (t : str) (rows : list row) (r : row) :
  In r rows -> col_title r = t ->
  Z.eqb (Z.of_nat (List.length (filter (title_is t) rows))) 0 = false.
Proof.
  intros Hin Ht. apply Z.eqb_neq.
  assert (Hf : In r (filter (title_is t) rows)).
  { apply filter_In. split; [assumption | now apply title_is_true]. }
  destruct (filter (title_is t) rows); [contradiction | simpl; lia].
Qed.

(** C1.  When some row carries the title, [complete_todo] succeeds, and the
    next [read_todos] returns, for every row that carried the title, its
    record with [is_completed] true; every record of that title read back is
    completed. *)
Theorem complete_todo_then_read_todos (db : database) (t : str) :
  (exists r, In r (todos db) /\ col_title r = t) ->
  exists db' records,
    complete_todo t db = (Ok tt, db') /\
    read_todos db' = (Ok records, db') /\
    (forall r, In r (todos db) -> col_title r = t ->
       In {| id := col_id r; title := col_title r;
             description := col_description r;
             is_completed := true;
             created_at := col_created_at r |} records) /\
    (forall rec, In rec records -> title rec = t -> is_completed rec = true).
Proof.
  intros (r0 & Hin0 & Ht0).
  rewrite complete_todo_run, (matching_rows_pos _ _ _ Hin0 Ht0).
  eexists _, _. split; [reflexivity|]. split; [apply read_todos_run|].
  cbn [with_todos todos]. split.
  - intros r Hin Ht.
    apply in_map_iff. exists (set_completed r). split; [reflexivity|].
    apply in_map_iff. exists r. split; [|assumption].
    apply title_is_true in Ht. now rewrite Ht.
  - intros rec Hrec Htitle.
    apply in_map_iff in Hrec as (r' & <- & Hr').
    apply in_map_iff in Hr' as (r & <- & _).
    destruct (title_is t r) eqn:E; [reflexivity|].
    cbn [record_of title] in Htitle.
    apply title_is_true in Htitle. congruence.
Qed.

Lemma complete_todo_then_read_todos_witness :
  exists db' records,
    complete_todo (lit "milk") sample_db = (Ok tt, db') /\
    read_todos db' = (Ok records, db') /\
    (forall r, In r (todos sample_db) -> col_title r = lit "milk" ->
       In {| id := col_id r; title := col_title r;
             description := col_description r;
             is_completed := true;
             created_at := col_created_at r |} records) /\
    (forall rec, In rec records -> title rec = lit "milk" ->
       is_completed rec = true).
Proof.
  apply (complete_todo_then_read_todos sample_db (lit "milk")).
  eexists. split; [left; reflexivity | reflexivity].
Defined.

(** C6.  After [add_todo X Y], [read_todos] returns a record with title [X],
    description [Y] and [is_completed] false. *)
Theorem add_todo_then_read_todos (db : database) (X Y : str) :
  exists db' records rec,
    add_todo X (Some Y) db = (Ok tt, db') /\
    read_todos db' = (Ok records, db') /\
    In rec records /\
    title rec = X /\ description rec = Some Y /\ is_completed rec = false.
Proof.
  eexists _, _, _. split; [reflexivity|]. split; [apply read_todos_run|].
  cbn [todos]. rewrite map_app. split.
  - apply in_or_app. right. left. reflexivity.
  - repeat split.
Qed.

(** C5.  [complete_todo] and [delete_todo] raise the not-found error exactly
    when the row count of their statement is zero, which is the number of
    rows carrying the title.  When at least one row carries it, the call
    succeeds and touches each of them: after [complete_todo] all these rows
    are completed and every other row is as before; after [delete_todo] none
    of these rows is left and every other row is kept. *)
Theorem complete_and_delete_contract (db : database) (t : str) :
  let matched := Z.of_nat (List.length (filter (title_is t) (todos db))) in
  (exists cur db',
     execute_update t db = (Ok cur, db') /\
     rowcount cur = matched /\
     snd (complete_todo t db) = db' /\
     (fst (complete_todo t db) = Raise (not_found t) <-> rowcount cur = 0%Z) /\
     ((0 < rowcount cur)%Z -> fst (complete_todo t db) = Ok tt) /\
     todos db' =
       map (fun r => if title_is t r then set_completed r else r) (todos db) /\
     Forall (fun r => col_title r = t -> col_completed r = true) (todos db')) /\
  (exists cur db',
     execute_delete t db = (Ok cur, db') /\
     rowcount cur = matched /\
     snd (delete_todo t db) = db' /\
     (fst (delete_todo t db) = Raise (not_found t) <-> rowcount cur = 0%Z) /\
     ((0 < rowcount cur)%Z -> fst (delete_todo t db) = Ok tt) /\
     todos db' = filter (fun r => negb (title_is t r)) (todos db) /\
     Forall (fun r => col_title r <> t) (todos db')).
Proof.
  intros matched. split.
  - eexists _, _. split; [reflexivity|]. cbn [rowcount].
    rewrite complete_todo_run. fold matched. cbn [fst snd].
    split; [reflexivity|]. split; [reflexivity|].
    destruct (Z.eqb_spec matched 0) as [E|E].
    + rewrite E. repeat split; try lia.
      apply Forall_forall. intros r Hr Ht.
      cbn [with_todos todos] in Hr.
      apply in_map_iff in Hr as (r0 & <- & _).
      destruct (title_is t r0) eqn:Et; [reflexivity|].
      apply title_is_true in Ht. congruence.
    + repeat split; try discriminate; try congruence.
      apply Forall_forall. intros r Hr Ht.
      cbn [with_todos todos] in Hr.
      apply in_map_iff in Hr as (r0 & <- & _).
      destruct (title_is t r0) eqn:Et; [reflexivity|].
      apply title_is_true in Ht. congruence.
  - eexists _, _. split; [reflexivity|]. cbn [rowcount].
    rewrite delete_todo_run. fold matched. cbn [fst snd].
    split; [reflexivity|]. split; [reflexivity|].
    assert (Hgone : Forall (fun r => col_title r <> t)
                      (filter (fun r => negb (title_is t r)) (todos db))).
    { apply Forall_forall. intros r Hr Ht.
      apply filter_In in Hr as [_ Hr].
      apply title_is_true in Ht. rewrite Ht in Hr. discriminate. }
    destruct (Z.eqb_spec matched 0) as [E|E].
    + rewrite E. repeat split; try lia. exact Hgone.
    + repeat split; try discriminate; try congruence. exact Hgone.
Qed.

Lemma complete_and_delete_contract_witness :
  fst (complete_todo (lit "milk") sample_db) = Ok tt /\
  fst (delete_todo (lit "milk") sample_db) = Ok tt /\
  fst (complete_todo (lit "tea") sample_db) = Raise (not_found (lit "tea")) /\
  fst (delete_todo (lit "tea") sample_db) = Raise (not_found (lit "tea")).
Proof.
  destruct (complete_and_delete_contract sample_db (lit "milk"))
    as [(c1 & d1 & _ & Hc1 & _ & _ & Hok1 & _)
        (c2 & d2 & _ & Hc2 & _ & _ & Hok2 & _)].
  destruct (complete_and_delete_contract sample_db (lit "tea"))
    as [(c3 & d3 & _ & Hc3 & _ & Hnf3 & _)
        (c4 & d4 & _ & Hc4 & _ & Hnf4 & _)].
  split; [|split; [|split]].
  - apply Hok1. rewrite Hc1. reflexivity.
  - apply Hok2. rewrite Hc2. reflexivity.
  - apply Hnf3. rewrite Hc3. reflexivity.
  - apply Hnf4. rewrite Hc4. reflexivity.
Defined.

(** ** Weather alerts *)

Import Weather.

Lemma format_weather_alert_carried (feature : json) :
  carries_properties feature = true ->
  format_weather_alert feature = Done (projection feature).
Proof.
  unfold carries_properties, projection, subfield, properties_of,
    format_weather_alert, py_get.
  destruct feature as [| | | | | |ms]; try discriminate.
  destruct (members_get ms (lit "properties")) as [[| | | | | |ps]|];
    try discriminate.
  intros _. cbn [attempt_bind].
  destruct (members_get ps (lit "event")),
           (members_get ps (lit "areaDesc")),
           (members_get ps (lit "severity")),
           (members_get ps (lit "description")),
           (members_get ps (lit "instruction")); reflexivity.
Qed.

Lemma format_weather_alert_bare (feature : json) :
  carries_properties feature = false ->
  exists v, format_weather_alert feature = Caught (no_attribute_get v).
Proof.
  unfold carries_properties, properties_of, format_weather_alert, py_get.
  destruct feature as [| | | | | |ms];
    try (intros _; eexists; reflexivity).
  destruct (members_get ms (lit "properties")) as [[| | | | | |ps]|];
    try discriminate; intros _; eexists; reflexivity.
Qed.

Lemma format_all_carried (fs : list json) :
  Forall (fun f => carries_properties f = true) fs ->
  format_all fs = Done (map projection fs).
Proof.
  induction 1 as [|f fs Hf _ IH]; [reflexivity|].
  cbn [format_all map].
  rewrite (format_weather_alert_carried f Hf), IH. reflexivity.
Qed.

Lemma format_all_bare (fs : list json) :
  Exists (fun f => carries_properties f = false) fs ->
  exists v, format_all fs = Caught (no_attribute_get v).
Proof.
  induction fs as [|f fs IH]; intros H; [inversion H|].
  cbn [format_all].
  destruct (carries_properties f) eqn:Hf.
  - rewrite (format_weather_alert_carried f Hf). cbn [attempt_bind].
    apply Exists_cons in H as [H|H]; [congruence|].
    destruct (IH H) as [v ->]. now exists v.
  - destruct (format_weather_alert_bare f Hf) as [v ->]. now exists v.
Qed.

Section WeatherFacts.

Variable requests_get : str -> attempt response.
Variable state : str.
Variable r : response.
Variable ms : list (str * json).
Variable fs : list json.

Hypothesis Hget : requests_get (alerts_url state) = Done r.
Hypothesis Hstatus : raise_for_status r = Done tt.
Hypothesis Hbody : body_json r = Done (JDict ms).
Hypothesis Hfeatures : members_get ms (lit "features") = Some (JList fs).

Lemma get_weather_alerts_run :
  get_weather_alerts requests_get state =
  match format_all fs with
  | Done alerts => Ok alerts
  | Caught e =>
      Raise (ValueError
               (lit "Error fetching weather alerts for " ++ state ++ lit ": " ++ e))
  end.
Proof.
  unfold get_weather_alerts. fold (alerts_url state).
  rewrite Hget. cbn [attempt_bind]. rewrite Hstatus. cbn [attempt_bind].
  rewrite Hbody. cbn [attempt_bind py_getitem_features].
  rewrite Hfeatures. reflexivity.
Qed.

End WeatherFacts.

(** C4, as amended.  When the upstream answers with a status that passes
    [raise_for_status] and a JSON object whose [features] is an array in
    which every entry is an object carrying a [properties] object,
    [get_weather_alerts] returns the array mapped entry by entry through the
    WeatherAlert projection, a field being "Unknown" when its subfield is
    absent; with no features the result is the empty sequence. *)
Theorem get_weather_alerts_projects
  (requests_get : str -> attempt response) (state : str)
  (r : response) (ms : list (str * json)) (fs : list json) :
  requests_get (alerts_url state) = Done r ->
  raise_for_status r = Done tt ->
  body_json r = Done (JDict ms) ->
  members_get ms (lit "features") = Some (JList fs) ->
  Forall (fun f => carries_properties f = true) fs ->
  get_weather_alerts requests_get state = Ok (map projection fs) /\
  (fs = [] -> get_weather_alerts requests_get state = Ok []).
Proof.
  intros Hget Hstatus Hbody Hfeatures Hall.
  rewrite (get_weather_alerts_run _ _ _ _ _ Hget Hstatus Hbody Hfeatures).
  rewrite (format_all_carried fs Hall).
  split; [reflexivity|]. intros ->. reflexivity.
Qed.

Lemma get_weather_alerts_projects_witness :
  get_weather_alerts (upstream_ok body_no_severity) (lit "ZZ") =
    Ok [ {| Event := JStr (lit "Flood Warning");
            Area := JStr (lit "Ada");
            Severity := JStr (lit "Unknown");
            Description := JStr (lit "Rain");
            Instruction := JNull |} ] /\
  get_weather_alerts (upstream_ok (JDict [(lit "features", JList [])])) (lit "ZZ") =
    Ok [].
Proof.
  split.
  - refine (proj1 (get_weather_alerts_projects
                     (upstream_ok body_no_severity) (lit "ZZ") _ _ _
                     eq_refl eq_refl eq_refl eq_refl _)).
    repeat constructor.
  - refine (proj2 (get_weather_alerts_projects
                     (upstream_ok (JDict [(lit "features", JList [])])) (lit "ZZ")
                     _ _ _ eq_refl eq_refl eq_refl eq_refl _) eq_refl).
    constructor.
Defined.

(** C4, as stated, fails: the upstream answers with status 200 and the body
    [{"features": [{}]}], and the call ends in the wrapped error instead of
    the projected features. *)
Lemma get_weather_alerts_bare_feature_raises :
  raise_for_status
    {| status_code := 200; http_error_msg := [];
       body_json := Done body_bare_feature |} = Done tt /\
  get_weather_alerts (upstream_ok body_bare_feature) (lit "ZZ") =
    Raise (ValueError
             (lit "Error fetching weather alerts for ZZ: 'NoneType' object has no attribute 'get'")) /\
  get_weather_alerts (upstream_ok body_bare_feature) (lit "ZZ") <>
    Ok (map projection [JDict []]).
Proof.
  split; [reflexivity|]. split; [reflexivity|]. discriminate.
Qed.

(** C10.  When the upstream answers with a passing status and a JSON object
    whose [features] array holds an entry that does not carry a [properties]
    object, [get_weather_alerts] raises the wrapped error, built from an
    AttributeError on [get], and returns no sequence of alerts. *)
Theorem get_weather_alerts_missing_properties
  (requests_get : str -> attempt response) (state : str)
  (r : response) (ms : list (str * json)) (fs : list json) :
  requests_get (alerts_url state) = Done r ->
  raise_for_status r = Done tt ->
  body_json r = Done (JDict ms) ->
  members_get ms (lit "features") = Some (JList fs) ->
  Exists (fun f => carries_properties f = false) fs ->
  (exists v,
     get_weather_alerts requests_get state =
     Raise (ValueError
              (lit "Error fetching weather alerts for " ++ state ++ lit ": "
               ++ no_attribute_get v))) /\
  (forall alerts, get_weather_alerts requests_get state <> Ok alerts).
Proof.
  intros Hget Hstatus Hbody Hfeatures Hbare.
  rewrite (get_weather_alerts_run _ _ _ _ _ Hget Hstatus Hbody Hfeatures).
  destruct (format_all_bare fs Hbare) as [v ->].
  split; [now exists v | discriminate].
Qed.

Lemma get_weather_alerts_missing_properties_witness :
  (exists v,
     get_weather_alerts (upstream_ok body_bare_feature) (lit "ZZ") =
     Raise (ValueError
              (lit "Error fetching weather alerts for " ++ lit "ZZ" ++ lit ": "
               ++ no_attribute_get v))) /\
  (forall alerts,
     get_weather_alerts (upstream_ok body_bare_feature) (lit "ZZ") <> Ok alerts).
Proof.
  refine (get_weather_alerts_missing_properties
            (upstream_ok body_bare_feature) (lit "ZZ") _ _ _
            eq_refl eq_refl eq_refl eq_refl _).
  apply Exists_cons_hd. reflexivity.
Defined.

(** ** Worked examples *)

Example replace_all_occurrences :
  replace (lit "a.b.c") (lit ".") (lit "::") = lit "a::b::c".
Proof. reflexivity. Qed.

Example replace_scans_from_the_left :
  replace (lit "aaa") (lit "aa") (lit "b") = lit "ba".
Proof. reflexivity. Qed.

Example replace_empty_old :
  replace (lit "ab") [] (lit "-") = lit "-a-b-".
Proof. reflexivity. Qed.

Example list_docs_after_edits :
  fst (list_docs
         (run_edits [(lit "plan.md", lit "plan", lit "PLAN");
                     (lit "memo.txt", lit "a", lit "b");
                     (lit "spec.txt", [], lit "!")] startup)) =
  fst (list_docs startup).
Proof. reflexivity. Qed.

Example add_then_complete_then_delete :
  let db1 := snd (add_todo (lit "X") (Some (lit "Y")) sample_db) in
  let db2 := snd (complete_todo (lit "X") db1) in
  let db3 := snd (delete_todo (lit "X") db2) in
  map is_completed (filter (fun t => if str_eq_dec (title t) (lit "X") then true else false)
                      (match fst (read_todos db1) with Ok l => l | Raise _ => [] end))
    = [false] /\
  map is_completed (filter (fun t => if str_eq_dec (title t) (lit "X") then true else false)
                      (match fst (read_todos db2) with Ok l => l | Raise _ => [] end))
    = [true] /\
  todos db3 = todos sample_db.
Proof. repeat split. Qed.

(** * Further properties *)

(** ** Editing documents *)

Lemma replace_same (s x : str) : replace s x x = s.
Proof.
  destruct x as [|o x].
  - destruct (replace_pieces_empty s) as (ps & _ & Hj & Hr).
    now rewrite Hr, <- Hj.
  - destruct (replace_pieces_nonempty o x s) as (ps & _ & Hj & _ & Hr).
    now rewrite Hr, <- Hj.
Qed.

Lemma dict_setitem_same (d : dict) (k v : str) :
  dict_get d k = Some v -> dict_setitem d k v = d.
Proof.
  induction d as [|[k0 v0] d IH]; simpl; [discriminate|].
  destruct (str_eq_dec k k0); intros H.
  - now injection H as ->.
  - f_equal. now apply IH.
Qed.

Lemma edit_document_stores (w : world) (doc_id old_str new_str content : str) :
  dict_get (w_docs w) doc_id = Some content ->
  edit_document doc_id old_str new_str w =
    (Ok tt,
     set_docs (dict_setitem (w_docs w) doc_id
                 (replace content old_str new_str)) w) /\
  dict_get (w_docs (snd (edit_document doc_id old_str new_str w))) doc_id =
    Some (replace content old_str new_str).
Proof.
  intros H. rewrite edit_document_run, H. split; [reflexivity|].
  cbn [snd set_docs w_docs]. rewrite dict_get_setitem.
  destruct (str_eq_dec doc_id doc_id); [reflexivity | congruence].
Qed.

(** X1.  Replacing a string by itself succeeds on a stored document and
    leaves the whole world as it was, the empty string included. *)
Theorem edit_document_same_strings (w : world) (doc_id s content : str) :
  dict_get (w_docs w) doc_id = Some content ->
  edit_document doc_id s s w = (Ok tt, w).
Proof.
  intros H. rewrite edit_document_run, H, replace_same.
  rewrite (dict_setitem_same _ _ _ H). now destruct w.
Qed.

Lemma edit_document_same_strings_witness :
  edit_document (lit "plan.md") (lit "plan") (lit "plan") startup = (Ok tt, startup) /\
  edit_document (lit "plan.md") [] [] startup = (Ok tt, startup).
Proof.
  split.
  - apply (edit_document_same_strings startup (lit "plan.md") (lit "plan")
             (lit "The plan outlines the steps for the project's implementation.")).
    reflexivity.
  - apply (edit_document_same_strings startup (lit "plan.md") []
             (lit "The plan outlines the steps for the project's implementation.")).
    reflexivity.
Defined.

Lemma startswith_length (s p : str) :
  startswith s p = true -> List.length p <= List.length s.
Proof.
  revert s. induction p as [|x p IH]; intros s H; simpl; [lia|].
  destruct s as [|c s]; simpl in H; [discriminate|].
  apply andb_true_iff in H as [_ H]. apply IH in H. simpl. lia.
Qed.

Lemma occurrences_longer (s p : str) :
  List.length s < List.length p -> occurrences s p = 0.
Proof.
  induction s as [|c s IH]; intros H; cbn [occurrences].
  - destruct (startswith [] p) eqn:E; [|reflexivity].
    apply startswith_length in E. lia.
  - destruct (startswith (c :: s) p) eqn:E.
    + apply startswith_length in E. lia.
    + rewrite IH; [reflexivity | simpl in H; lia].
Qed.

(** X2.  An [old_str] longer than the stored content cannot occur in it: the
    edit succeeds and the content stays as it is. *)
Theorem edit_document_old_str_too_long
  (w : world) (doc_id old_str new_str content : str) :
  dict_get (w_docs w) doc_id = Some content ->
  List.length content < List.length old_str ->
  edit_document doc_id old_str new_str w = (Ok tt, w).
Proof.
  intros H Hlen. rewrite edit_document_run, H.
  rewrite replace_absent by now apply occurrences_longer.
  rewrite (dict_setitem_same _ _ _ H). now destruct w.
Qed.

Lemma edit_document_old_str_too_long_witness :
  edit_document (lit "k") (lit "abc") (lit "x")
    {| w_docs := [(lit "k", lit "ab")]; w_ctx := [] |} =
  (Ok tt, {| w_docs := [(lit "k", lit "ab")]; w_ctx := [] |}).
Proof.
  apply (edit_document_old_str_too_long
           {| w_docs := [(lit "k", lit "ab")]; w_ctx := [] |}
           (lit "k") (lit "abc") (lit "x") (lit "ab")).
  - reflexivity.
  - simpl. lia.
Defined.

Lemma length_join (sep : str) (ps : list str) :
  ps <> [] ->
  List.length (join sep ps) + List.length sep =
  list_sum (map (@List.length N) ps) + List.length ps * List.length sep.
Proof.
  induction ps as [|p ps IH]; [congruence|]. intros _.
  destruct ps as [|p' ps].
  - simpl. lia.
  - rewrite join_cons by discriminate.
    rewrite !length_app.
    specialize (IH ltac:(discriminate)).
    cbn [map list_sum fold_right List.length] in *. lia.
Qed.

Lemma replace_length (s old new : str) :
  exists n,
    List.length (replace s old new) + n * List.length old =
    List.length s + n * List.length new.
Proof.
  assert (H : exists ps, ps <> [] /\ s = join old ps /\
                         replace s old new = join new ps).
  { destruct old as [|o old].
    - destruct (replace_pieces_empty s) as (ps & Hne & Hj & Hr). eauto.
    - destruct (replace_pieces_nonempty o old s) as (ps & Hne & Hj & _ & Hr).
      eauto. }
  destruct H as (ps & Hne & Hj & Hr).
  exists (List.length ps - 1).
  pose proof (length_join old ps Hne) as Ho.
  pose proof (length_join new ps Hne) as Hn.
  rewrite Hr. clear Hr. subst s.
  destruct ps as [|p ps]; [congruence|].
  cbn [List.length] in *. replace (S (List.length ps) - 1) with (List.length ps) by lia.
  lia.
Qed.

(** X3.  The length of an edited document moves with the lengths of the two
    strings: equal lengths keep it, a [new_str] no longer than [old_str]
    does not grow it, and a [new_str] no shorter does not shrink it. *)
Theorem edit_document_length
  (w : world) (doc_id old_str new_str content : str) :
  dict_get (w_docs w) doc_id = Some content ->
  exists content',
    dict_get (w_docs (snd (edit_document doc_id old_str new_str w))) doc_id =
      Some content' /\
    (List.length new_str = List.length old_str ->
     List.length content' = List.length content) /\
    (List.length new_str <= List.length old_str ->
     List.length content' <= List.length content) /\
    (List.length old_str <= List.length new_str ->
     List.length content <= List.length content').
Proof.
  intros H.
  destruct (edit_document_stores w doc_id old_str new_str content H) as [_ Hs].
  exists (replace content old_str new_str). split; [exact Hs|].
  destruct (replace_length content old_str new_str) as [n Hn].
  repeat split; intros; nia.
Qed.

Lemma edit_document_length_witness :
  exists content',
    dict_get (w_docs (snd (edit_document (lit "report.pdf") (lit "20m")
                             (lit "25m") startup))) (lit "report.pdf") =
      Some content' /\
    List.length content' =
      List.length (lit "The report details the state of a 20m condenser tower.").
Proof.
  destruct (edit_document_length startup (lit "report.pdf") (lit "20m") (lit "25m")
              (lit "The report details the state of a 20m condenser tower.")
              eq_refl)
    as (content' & Hget & Heq & _ & _).
  exists content'. split; [exact Hget | apply Heq; reflexivity].
Defined.

Lemma dict_setitem_comm (d : dict) (a b x y : str) :
  a <> b -> dict_get d a <> None ->
  dict_setitem (dict_setitem d a x) b y = dict_setitem (dict_setitem d b y) a x.
Proof.
  intros Hab. induction d as [|[k v] d IH]; simpl; [congruence|].
  destruct (str_eq_dec a k) as [->|Hak].
  - intros _. destruct (str_eq_dec b k) as [->|Hbk]; [congruence|].
    simpl. destruct (str_eq_dec b k); [congruence|].
    destruct (str_eq_dec k k); [reflexivity | congruence].
  - intros Ha. destruct (str_eq_dec b k) as [->|Hbk]; simpl.
    + destruct (str_eq_dec k k); [|congruence].
      destruct (str_eq_dec a k); [congruence | reflexivity].
    + destruct (str_eq_dec b k); [congruence|].
      destruct (str_eq_dec a k); [congruence|].
      f_equal. now apply IH.
Qed.

(** X4.  Two edits of different documents commute: whichever comes first,
    the world ends the same, also when one of the ids is unknown. *)
Theorem edit_document_commutes
  (w : world) (a b old_a new_a old_b new_b : str) :
  a <> b ->
  run_edits [(a, old_a, new_a); (b, old_b, new_b)] w =
  run_edits [(b, old_b, new_b); (a, old_a, new_a)] w.
Proof.
  intros Hab. cbn [run_edits].
  rewrite !edit_document_run.
  destruct (dict_get (w_docs w) a) as [ca|] eqn:Ea;
    destruct (dict_get (w_docs w) b) as [cb|] eqn:Eb;
    cbn [snd set_docs w_docs w_ctx];
    rewrite ?dict_get_setitem, ?Ea, ?Eb;
    repeat match goal with
           | |- context [str_eq_dec ?x ?y] =>
               destruct (str_eq_dec x y); [congruence|]
           end;
    rewrite ?Ea, ?Eb; unfold set_docs; cbn [snd w_docs w_ctx];
    try reflexivity.
  f_equal. apply dict_setitem_comm; [assumption | congruence].
Qed.

Lemma edit_document_commutes_witness :
  run_edits [(lit "plan.md", lit "plan", lit "PLAN");
             (lit "spec.txt", lit "These", lit "The")] startup =
  run_edits [(lit "spec.txt", lit "These", lit "The");
             (lit "plan.md", lit "plan", lit "PLAN")] startup.
Proof.
  apply (edit_document_commutes startup (lit "plan.md") (lit "spec.txt")).
  discriminate.
Defined.

(** ** Todos: composition and frame *)

Lemma with_todos_same (db : database) : with_todos (todos db) db = db.
Proof. now destruct db. Qed.

Lemma no_row_filter (t : str) (rows : list row) :
  (forall r, In r rows -> col_title r <> t) ->
  filter (title_is t) rows = [] /\
  map (fun r => if title_is t r then set_completed r else r) rows = rows /\
  filter (fun r => negb (title_is t r)) rows = rows.
Proof.
  induction rows as [|r rows IH]; intros H; [now repeat split|].
  destruct IH as (IH1 & IH2 & IH3); [intros r' Hr'; apply H; now right|].
  assert (E : title_is t r = false).
  { destruct (title_is t r) eqn:E; [|reflexivity].
    apply title_is_true in E. exfalso. apply (H r); [now left | assumption]. }
  cbn [filter map]. rewrite E. cbn [negb]. rewrite IH1, IH2, IH3.
  now repeat split.
Qed.

Lemma no_row_not_found (t : str) (db : database) :
  (forall r, In r (todos db) -> col_title r <> t) ->
  complete_todo t db = (Raise (not_found t), db) /\
  delete_todo t db = (Raise (not_found t), db).
Proof.
  intros H. destruct (no_row_filter t (todos db) H) as (H1 & H2 & H3).
  rewrite complete_todo_run, delete_todo_run, H1, H2, H3, with_todos_same.
  split; reflexivity.
Qed.

(** X5.  When no row carries the title, [complete_todo] and [delete_todo]
    raise the not-found error and the database is exactly as before. *)
Theorem todo_not_found_changes_nothing (db : database) (t : str) :
  (forall r, In r (todos db) -> col_title r <> t) ->
  complete_todo t db = (Raise (not_found t), db) /\
  delete_todo t db = (Raise (not_found t), db).
Proof. apply no_row_not_found. Qed.

Lemma todo_not_found_changes_nothing_witness :
  complete_todo (lit "tea") sample_db = (Raise (not_found (lit "tea")), sample_db) /\
  delete_todo (lit "tea") sample_db = (Raise (not_found (lit "tea")), sample_db).
Proof.
  apply (todo_not_found_changes_nothing sample_db (lit "tea")).
  intros r Hr. cbn in Hr.
  destruct Hr as [<-|[<-|[<-|[]]]]; discriminate.
Defined.

Lemma title_is_set_completed (t : str) (r : row) :
  title_is t (if title_is t r then set_completed r else r) = title_is t r.
Proof. destruct (title_is t r) eqn:E; [|exact E]. exact E. Qed.

Lemma filter_title_completed (t : str) (rows : list row) :
  List.length
    (filter (title_is t)
       (map (fun r => if title_is t r then set_completed r else r) rows)) =
  List.length (filter (title_is t) rows).
Proof.
  induction rows as [|r rows IH]; [reflexivity|].
  cbn [map filter]. rewrite title_is_set_completed.
  destruct (title_is t r); cbn [List.length]; now rewrite IH.
Qed.

Lemma map_completed_twice (t : str) (rows : list row) :
  let F := fun r => if title_is t r then set_completed r else r in
  map F (map F rows) = map F rows.
Proof.
  intros F. rewrite map_map. apply map_ext. intros r. unfold F.
  destruct (title_is t r) eqn:E; [|now rewrite E].
  assert (E' : title_is t (set_completed r) = true) by exact E.
  now rewrite E'.
Qed.

(** X6.  [complete_todo] is idempotent: a second call with the same title
    ends as the first one did and leaves the database as the first one left
    it; rows that are already completed still count as matched. *)
Theorem complete_todo_idempotent (db : database) (t : str) :
  complete_todo t (snd (complete_todo t db)) = complete_todo t db.
Proof.
  rewrite !complete_todo_run. cbn [snd with_todos todos id_seq clock].
  rewrite filter_title_completed, map_completed_twice. reflexivity.
Qed.

(** X7.  Once [delete_todo] has run for a title, a further [delete_todo] or
    [complete_todo] for that title raises the not-found error and changes
    nothing. *)
Theorem delete_todo_then_not_found (db : database) (t : str) :
  delete_todo t (snd (delete_todo t db)) =
    (Raise (not_found t), snd (delete_todo t db)) /\
  complete_todo t (snd (delete_todo t db)) =
    (Raise (not_found t), snd (delete_todo t db)).
Proof.
  destruct (no_row_not_found t (snd (delete_todo t db))) as [Hc Hd].
  - rewrite delete_todo_run. cbn [snd with_todos todos].
    intros r Hr Ht. apply filter_In in Hr as [_ Hr].
    apply title_is_true in Ht. rewrite Ht in Hr. discriminate.
  - now split.
Qed.


Lemma filter_app_last (t : str) (d : option str) (rows : list row) (i c : Z) :
  let r := {| col_id := i; col_title := t; col_description := d;
              col_completed := false; col_created_at := c |} in
  filter (fun r => negb (title_is t r)) (rows ++ [r]) =
    filter (fun r => negb (title_is t r)) rows /\
  Z.eqb (Z.of_nat (List.length (filter (title_is t) (rows ++ [r])))) 0 = false.
Proof.
  intros r.
  assert (E : title_is t r = true) by (now apply title_is_true).
  rewrite !filter_app. cbn [filter]. rewrite E. cbn [negb].
  rewrite app_nil_r, length_app. split; [reflexivity|].
  apply Z.eqb_neq. simpl. lia.
Qed.

(** X9.  [delete_todo] right after [add_todo] of the same title always
    succeeds, and it removes every row of that title, the older ones too:
    what is left are the rows of the other titles, in their order. *)
Theorem add_todo_then_delete_todo (db : database) (t : str) (d : option str) :
  exists db',
    delete_todo t (snd (add_todo t d db)) = (Ok tt, db') /\
    todos db' = filter (fun r => negb (title_is t r)) (todos db) /\
    Forall (fun r => col_title r <> t) (todos db').
Proof.
  rewrite delete_todo_run.
  unfold add_todo, execute_insert, bind, modify, ret. cbn [snd todos].
  destruct (filter_app_last t d (todos db) (id_seq db) (clock db)) as [Hf Hn].
  rewrite Hf, Hn. eexists. split; [reflexivity|]. cbn [with_todos todos].
  split; [reflexivity|].
  apply Forall_forall. intros r Hr Ht. apply filter_In in Hr as [_ Hr].
  apply title_is_true in Ht. rewrite Ht in Hr. discriminate.
Qed.




(** ** Weather alerts: failures and odd bodies *)

Lemma raise_for_status_bounds (r : response) :
  raise_for_status r = Done tt <->
  (status_code r < 400 \/ 600 <= status_code r)%Z.
Proof.
  unfold raise_for_status.
  destruct (Z.leb_spec 400 (status_code r)), (Z.ltb_spec (status_code r) 600);
    cbn [andb]; split; intros Hs; try reflexivity; try discriminate; lia.
Qed.

(** X11.  Whatever goes wrong before the body is looked at ends in the
    wrapped error with the message of the cause: a request that raises, a
    status from 400 to 599 (the body is then not read at all), and a body
    that is not JSON.  A status below 400 or from 600 on passes the check. *)
Theorem get_weather_alerts_wraps_upstream_failures
  (requests_get : str -> attempt response) (state : str) :
  let wrapped e :=
    Raise (ValueError
             (lit "Error fetching weather alerts for " ++ state ++ lit ": " ++ e)) in
  (forall e,
     requests_get (alerts_url state) = Caught e ->
     get_weather_alerts requests_get state = wrapped e) /\
  (forall r,
     requests_get (alerts_url state) = Done r ->
     (400 <= status_code r < 600)%Z ->
     get_weather_alerts requests_get state = wrapped (http_error_msg r)) /\
  (forall r e,
     requests_get (alerts_url state) = Done r ->
     (status_code r < 400 \/ 600 <= status_code r)%Z ->
     body_json r = Caught e ->
     get_weather_alerts requests_get state = wrapped e).
Proof.
  intros wrapped. unfold get_weather_alerts. fold (alerts_url state).
  split; [|split].
  - intros e ->. reflexivity.
  - intros r -> Hs. cbn [attempt_bind]. unfold raise_for_status.
    destruct (Z.leb_spec 400 (status_code r)); [|lia].
    destruct (Z.ltb_spec (status_code r) 600); [|lia].
    reflexivity.
  - intros r e -> Hs Hb. cbn [attempt_bind].
    apply raise_for_status_bounds in Hs. rewrite Hs. cbn [attempt_bind].
    rewrite Hb. reflexivity.
Qed.

Lemma get_weather_alerts_wraps_upstream_failures_witness :
  get_weather_alerts (fun _ => Caught (lit "Connection refused")) (lit "CA") =
    Raise (ValueError (lit "Error fetching weather alerts for CA: Connection refused")) /\
  get_weather_alerts
    (fun _ => Done {| status_code := 404;
                      http_error_msg := lit "404 Client Error";
                      body_json := Done (JDict [(lit "features", JList [])]) |})
    (lit "CA") =
    Raise (ValueError (lit "Error fetching weather alerts for CA: 404 Client Error")) /\
  get_weather_alerts
    (fun _ => Done {| status_code := 200; http_error_msg := [];
                      body_json := Caught (lit "Expecting value") |})
    (lit "CA") =
    Raise (ValueError (lit "Error fetching weather alerts for CA: Expecting value")).
Proof.
  split; [|split].
  - apply (proj1 (get_weather_alerts_wraps_upstream_failures
                    (fun _ => Caught (lit "Connection refused")) (lit "CA"))).
    reflexivity.
  - apply (proj1 (proj2 (get_weather_alerts_wraps_upstream_failures
                           (fun _ => Done {| status_code := 404;
                                             http_error_msg := lit "404 Client Error";
                                             body_json := Done (JDict [(lit "features", JList [])]) |})
                           (lit "CA")))
             {| status_code := 404;
                http_error_msg := lit "404 Client Error";
                body_json := Done (JDict [(lit "features", JList [])]) |}).
    + reflexivity.
    + cbn. lia.
  - apply (proj2 (proj2 (get_weather_alerts_wraps_upstream_failures
                           (fun _ => Done {| status_code := 200; http_error_msg := [];
                                             body_json := Caught (lit "Expecting value") |})
                           (lit "CA")))
             {| status_code := 200; http_error_msg := [];
                body_json := Caught (lit "Expecting value") |}
             (lit "Expecting value")).
    + reflexivity.
    + cbn. lia.
    + reflexivity.
Defined.

Section WeatherBodies.

Variable requests_get : str -> attempt response.
Variable state : str.
Variable r : response.

Hypothesis Hget : requests_get (alerts_url state) = Done r.
Hypothesis Hstatus : raise_for_status r = Done tt.

Lemma get_weather_alerts_body (body : json) :
  body_json r = Done body ->
  get_weather_alerts requests_get state =
  match (features <~ py_getitem_features body ;;
         items <~ py_iter features ;;
         format_all items) with
  | Done alerts => Ok alerts
  | Caught e =>
      Raise (ValueError
               (lit "Error fetching weather alerts for " ++ state ++ lit ": " ++ e))
  end.
Proof.
  intros Hbody. unfold get_weather_alerts. fold (alerts_url state).
  rewrite Hget. cbn [attempt_bind]. rewrite Hstatus. cbn [attempt_bind].
  rewrite Hbody. reflexivity.
Qed.

End WeatherBodies.

(** X12.  A JSON object without a [features] member makes the call raise the
    wrapped error of the KeyError, whose text is ['features']. *)
Theorem get_weather_alerts_without_features
  (requests_get : str -> attempt response) (state : str)
  (r : response) (ms : list (str * json)) :
  requests_get (alerts_url state) = Done r ->
  raise_for_status r = Done tt ->
  body_json r = Done (JDict ms) ->
  members_get ms (lit "features") = None ->
  get_weather_alerts requests_get state =
  Raise (ValueError
           (lit "Error fetching weather alerts for " ++ state ++ lit ": 'features'")).
Proof.
  intros Hget Hstatus Hbody Hnone.
  rewrite (get_weather_alerts_body _ _ _ Hget Hstatus _ Hbody).
  cbn [py_getitem_features]. rewrite Hnone. reflexivity.
Qed.

Lemma get_weather_alerts_without_features_witness :
  get_weather_alerts (upstream_ok (JDict [(lit "title", JStr (lit "none"))])) (lit "CA") =
  Raise (ValueError (lit "Error fetching weather alerts for CA: 'features'")).
Proof.
  exact (get_weather_alerts_without_features
           (upstream_ok (JDict [(lit "title", JStr (lit "none"))])) (lit "CA")
           _ _ eq_refl eq_refl eq_refl eq_refl).
Defined.

Lemma format_all_done (fs : list json) (alerts : list WeatherAlert) :
  format_all fs = Done alerts ->
  Forall (fun f => carries_properties f = true) fs /\
  alerts = map projection fs.
Proof.
  revert alerts. induction fs as [|f fs IH]; intros alerts H.
  - injection H as <-. split; constructor.
  - cbn [format_all] in H.
    destruct (carries_properties f) eqn:Hf.
    + rewrite (format_weather_alert_carried f Hf) in H. cbn [attempt_bind] in H.
      destruct (format_all fs) as [rest|e]; [|discriminate].
      injection H as <-. destruct (IH rest eq_refl) as [Hall ->].
      split; [now constructor | reflexivity].
    + destruct (format_weather_alert_bare f Hf) as [v Hv].
      rewrite Hv in H. discriminate.
Qed.

(** X13.  All or nothing: when the call returns for a body whose [features]
    is an array, every entry carried a [properties] object, and the result
    has one alert per entry, in the order of the array. *)
Theorem get_weather_alerts_returns_all_or_nothing
  (requests_get : str -> attempt response) (state : str)
  (r : response) (ms : list (str * json)) (fs : list json)
  (alerts : list WeatherAlert) :
  requests_get (alerts_url state) = Done r ->
  raise_for_status r = Done tt ->
  body_json r = Done (JDict ms) ->
  members_get ms (lit "features") = Some (JList fs) ->
  get_weather_alerts requests_get state = Ok alerts ->
  Forall (fun f => carries_properties f = true) fs /\
  alerts = map projection fs /\
  List.length alerts = List.length fs.
Proof.
  intros Hget Hstatus Hbody Hfeatures Hok.
  rewrite (get_weather_alerts_run _ _ _ _ _ Hget Hstatus Hbody Hfeatures) in Hok.
  destruct (format_all fs) as [l|e] eqn:E; [|discriminate].
  injection Hok as <-. destruct (format_all_done fs l E) as [Hall ->].
  split; [assumption|]. split; [reflexivity|]. apply length_map.
Qed.

Lemma get_weather_alerts_returns_all_or_nothing_witness :
  Forall (fun f => carries_properties f = true)
    [JDict [(lit "properties", JDict [])]] /\
  [ {| Event := Unknown; Area := Unknown; Severity := Unknown;
       Description := Unknown; Instruction := Unknown |} ] =
    map projection [JDict [(lit "properties", JDict [])]] /\
  List.length [ {| Event := Unknown; Area := Unknown; Severity := Unknown;
                   Description := Unknown; Instruction := Unknown |} ] = 1.
Proof.
  exact (get_weather_alerts_returns_all_or_nothing
           (upstream_ok
              (JDict [(lit "features", JList [JDict [(lit "properties", JDict [])]])]))
           (lit "CA") _ _ _ _ eq_refl eq_refl eq_refl eq_refl eq_refl).
Defined.

(** X14.  When [features] is a JSON object instead of an array, the loop
    runs over its keys: an empty object gives the empty list of alerts, and
    a non-empty one raises the wrapped AttributeError of a [str].  When
    [features] is null the wrapped error says that it is not iterable. *)
Theorem get_weather_alerts_features_not_an_array
  (requests_get : str -> attempt response) (state : str)
  (r : response) (ms : list (str * json)) :
  requests_get (alerts_url state) = Done r ->
  raise_for_status r = Done tt ->
  body_json r = Done (JDict ms) ->
  (members_get ms (lit "features") = Some (JDict []) ->
   get_weather_alerts requests_get state = Ok []) /\
  (forall k v rest,
     members_get ms (lit "features") = Some (JDict ((k, v) :: rest)) ->
     get_weather_alerts requests_get state =
     Raise (ValueError
              (lit "Error fetching weather alerts for " ++ state
               ++ lit ": 'str' object has no attribute 'get'"))) /\
  (members_get ms (lit "features") = Some JNull ->
   get_weather_alerts requests_get state =
   Raise (ValueError
            (lit "Error fetching weather alerts for " ++ state
             ++ lit ": 'NoneType' object is not iterable"))).
Proof.
  intros Hget Hstatus Hbody.
  rewrite (get_weather_alerts_body _ _ _ Hget Hstatus _ Hbody).
  cbn [py_getitem_features].
  split; [|split].
  - intros ->. reflexivity.
  - intros k v rest ->. reflexivity.
  - intros ->. reflexivity.
Qed.

Lemma get_weather_alerts_features_not_an_array_witness :
  get_weather_alerts (upstream_ok (JDict [(lit "features", JDict [])])) (lit "CA") =
    Ok [] /\
  get_weather_alerts
    (upstream_ok (JDict [(lit "features", JDict [(lit "a", JInt 1)])])) (lit "CA") =
    Raise (ValueError
             (lit "Error fetching weather alerts for " ++ lit "CA"
              ++ lit ": 'str' object has no attribute 'get'")) /\
  get_weather_alerts (upstream_ok (JDict [(lit "features", JNull)])) (lit "CA") =
    Raise (ValueError
             (lit "Error fetching weather alerts for " ++ lit "CA"
              ++ lit ": 'NoneType' object is not iterable")).
Proof.
  split; [|split].
  - exact (proj1 (get_weather_alerts_features_not_an_array
                    (upstream_ok (JDict [(lit "features", JDict [])])) (lit "CA")
                    _ _ eq_refl eq_refl eq_refl) eq_refl).
  - exact (proj1 (proj2 (get_weather_alerts_features_not_an_array
                    (upstream_ok (JDict [(lit "features", JDict [(lit "a", JInt 1)])]))
                    (lit "CA") _ _ eq_refl eq_refl eq_refl)) _ _ _ eq_refl).
  - exact (proj2 (proj2 (get_weather_alerts_features_not_an_array
                    (upstream_ok (JDict [(lit "features", JNull)])) (lit "CA")
                    _ _ eq_refl eq_refl eq_refl)) eq_refl).
Defined.

(** ** Files *)

Lemma dict_setitem_twice (d : dict) (k x y : str) :
  dict_setitem (dict_setitem d k x) k y = dict_setitem d k y.
Proof.
  induction d as [|[k0 v0] d IH]; simpl.
  - destruct (str_eq_dec k k); [reflexivity | congruence].
  - destruct (str_eq_dec k k0); simpl.
    + destruct (str_eq_dec k k0); [reflexivity | congruence].
    + destruct (str_eq_dec k k0); [congruence | now rewrite IH].
Qed.

Lemma edit_file_run (file_name new_text : str) (fs : Files.filesystem) :
  Files.edit_file file_name new_text fs =
  match dict_get (Files.files fs) file_name with
  | Some content =>
      (Files.Returned tt,
       Files.set_files
         (dict_setitem (Files.files fs) file_name (content ++ new_text)) fs)
  | None =>
      if Files.creatable fs file_name
      then (Files.Returned tt,
            Files.set_files (dict_setitem (Files.files fs) file_name new_text) fs)
      else (Files.Raised (Files.FileNotFoundError file_name), fs)
  end.
Proof.
  unfold Files.edit_file, Files.open_append, Files.write_append.
  destruct (dict_get (Files.files fs) file_name) as [c|] eqn:E.
  - now rewrite E.
  - destruct (Files.creatable fs file_name); [|reflexivity].
    unfold Files.set_files. cbn [Files.files Files.creatable].
    rewrite dict_get_setitem.
    destruct (str_eq_dec file_name file_name); [|congruence].
    now rewrite dict_setitem_twice.
Qed.

(** X15.  [read_file] returns the text of a file that exists, and for a path
    that names no file it raises the ValueError naming the path; the
    FileNotFoundError of [open] never reaches the caller. *)
Theorem read_file_contract (fs : Files.filesystem) (file_name : str) :
  (Files.read_file file_name fs =
     Files.Raised (Files.ValueError (lit "File " ++ file_name ++ lit " not found")) <->
   dict_get (Files.files fs) file_name = None) /\
  (forall content,
     dict_get (Files.files fs) file_name = Some content ->
     Files.read_file file_name fs = Files.Returned content) /\
  (forall path,
     Files.read_file file_name fs <> Files.Raised (Files.FileNotFoundError path)).
Proof.
  unfold Files.read_file, Files.open_read.
  destruct (dict_get (Files.files fs) file_name) as [c|]; repeat split;
    try discriminate; try reflexivity.
  intros content [= ->]. reflexivity.
Qed.

Lemma read_file_contract_witness :
  Files.read_file (lit "notes.txt")
    {| Files.files := [(lit "log.txt", lit "a")]; Files.creatable := fun _ => true |} =
    Files.Raised (Files.ValueError (lit "File notes.txt not found")) /\
  Files.read_file (lit "log.txt")
    {| Files.files := [(lit "log.txt", lit "a")]; Files.creatable := fun _ => true |} =
    Files.Returned (lit "a").
Proof.
  split.
  - apply (proj1 (read_file_contract
                    {| Files.files := [(lit "log.txt", lit "a")];
                       Files.creatable := fun _ => true |} (lit "notes.txt"))).
    reflexivity.
  - apply (proj1 (proj2 (read_file_contract
                    {| Files.files := [(lit "log.txt", lit "a")];
                       Files.creatable := fun _ => true |} (lit "log.txt")))).
    reflexivity.
Defined.



(** X17.  [edit_file] has no handler of its own: on a path that names no
    file and where none can be created, the FileNotFoundError of [open]
    reaches the caller as it is, and nothing is written; [read_file] on the
    same path raises its ValueError. *)
Theorem edit_file_missing_directory
  (fs : Files.filesystem) (file_name new_text : str) :
  dict_get (Files.files fs) file_name = None ->
  Files.creatable fs file_name = false ->
  Files.edit_file file_name new_text fs =
    (Files.Raised (Files.FileNotFoundError file_name), fs) /\
  Files.read_file file_name fs =
    Files.Raised (Files.ValueError (lit "File " ++ file_name ++ lit " not found")).
Proof.
  intros Hnone Hno. rewrite edit_file_run, Hnone, Hno.
  unfold Files.read_file, Files.open_read. rewrite Hnone. split; reflexivity.
Qed.

Lemma edit_file_missing_directory_witness :
  Files.edit_file (lit "tmp/notes.txt") (lit "hi")
    {| Files.files := []; Files.creatable := fun _ => false |} =
    (Files.Raised (Files.FileNotFoundError (lit "tmp/notes.txt")),
     {| Files.files := []; Files.creatable := fun _ => false |}) /\
  Files.read_file (lit "tmp/notes.txt")
    {| Files.files := []; Files.creatable := fun _ => false |} =
    Files.Raised (Files.ValueError (lit "File tmp/notes.txt not found")).
Proof.
  apply (edit_file_missing_directory
           {| Files.files := []; Files.creatable := fun _ => false |}
           (lit "tmp/notes.txt") (lit "hi")); reflexivity.
Defined.

(** X18.  Two appends to one file amount to one append of the two texts in
    a row, whenever the file exists or can be created. *)
Theorem edit_file_twice
  (fs : Files.filesystem) (file_name a b : str) :
  dict_get (Files.files fs) file_name <> None \/
  Files.creatable fs file_name = true ->
  Files.edit_file file_name b (snd (Files.edit_file file_name a fs)) =
  Files.edit_file file_name (a ++ b) fs.
Proof.
  intros H. rewrite (edit_file_run file_name a fs), (edit_file_run file_name (a ++ b) fs).
  destruct (dict_get (Files.files fs) file_name) as [c|] eqn:E.
  - cbn [snd]. rewrite edit_file_run. unfold Files.set_files.
    cbn [Files.files Files.creatable]. rewrite dict_get_setitem.
    destruct (str_eq_dec file_name file_name); [|congruence].
    now rewrite dict_setitem_twice, app_assoc.
  - destruct H as [H|H]; [congruence|]. rewrite H.
    cbn [snd]. rewrite edit_file_run. unfold Files.set_files.
    cbn [Files.files Files.creatable]. rewrite dict_get_setitem.
    destruct (str_eq_dec file_name file_name); [|congruence].
    now rewrite dict_setitem_twice.
Qed.

Lemma edit_file_twice_witness :
  Files.edit_file (lit "log.txt") (lit "c")
    (snd (Files.edit_file (lit "log.txt") (lit "b")
            {| Files.files := [(lit "log.txt", lit "a")];
               Files.creatable := fun _ => false |})) =
  Files.edit_file (lit "log.txt") (lit "bc")
    {| Files.files := [(lit "log.txt", lit "a")]; Files.creatable := fun _ => false |}.
Proof.
  apply (edit_file_twice
           {| Files.files := [(lit "log.txt", lit "a")];
              Files.creatable := fun _ => false |}
           (lit "log.txt") (lit "b") (lit "c")).
  left. discriminate.
Defined.

(** ** The prompt *)

Lemma format_document_shape (doc_id : str) :
  Prompts.format_document doc_id =
  [ Prompts.UserMessage
      ((Prompts.nl ++
        lit "    Your goal is to reformat a document to be written with markdown syntax." ++ Prompts.nl ++
        lit "    " ++ Prompts.nl ++
        lit "    The id of the document you need to reformat is:" ++ Prompts.nl ++
        lit "    <document_id>" ++ Prompts.nl ++
        lit "    ") ++
       doc_id ++
       (Prompts.nl ++
        lit "    </document_id>" ++ Prompts.nl ++
        lit "    " ++ Prompts.nl ++
        lit "    Add in headers, bullet points, tables, etc as necessary. Feel free to add in structure." ++ Prompts.nl ++
        lit "    Use the 'edit_document' tool to edit the document. After the document has been reformatted..." ++ Prompts.nl)) ].
Proof.
  unfold Prompts.format_document. rewrite <- !app_assoc. reflexivity.
Qed.

(** X19.  [format_document] returns one user message, a fixed text around
    the id as it was given, between the [<document_id>] tags; so two ids
    give the same prompt only when they are the same id. *)
Theorem format_document_names_its_document :
  (exists head tail,
     forall doc_id,
       Prompts.format_document doc_id =
       [ {| Prompts.msg_role := Prompts.user;
            Prompts.msg_content :=
              head ++ lit "<document_id>" ++ Prompts.nl ++ lit "    " ++
              doc_id ++ Prompts.nl ++ lit "    </document_id>" ++ tail |} ]) /\
  (forall a b,
     Prompts.format_document a = Prompts.format_document b -> a = b).
Proof.
  split.
  - exists (Prompts.nl ++
            lit "    Your goal is to reformat a document to be written with markdown syntax." ++ Prompts.nl ++
            lit "    " ++ Prompts.nl ++
            lit "    The id of the document you need to reformat is:" ++ Prompts.nl ++
            lit "    ").
    exists (Prompts.nl ++
            lit "    " ++ Prompts.nl ++
            lit "    Add in headers, bullet points, tables, etc as necessary. Feel free to add in structure." ++ Prompts.nl ++
            lit "    Use the 'edit_document' tool to edit the document. After the document has been reformatted..." ++ Prompts.nl).
    intros doc_id. unfold Prompts.format_document, Prompts.UserMessage.
    rewrite <- !app_assoc. reflexivity.
  - intros a b H. rewrite !format_document_shape in H.
    injection H as H. now apply app_inv_tail in H.
Qed.

Lemma format_document_names_its_document_witness :
  lit "plan.md" = lit "plan.md".
Proof.
  apply (proj2 format_document_names_its_document (lit "plan.md") (lit "plan.md")).
  reflexivity.
Defined.
